(** * svails CLI: the form renderer and the init command

    A shallow embedding of [src/index.ts] (module [Index]) and of the older
    copy of the same script (module [Part000]).

    Strings are [String.string]; the model covers ASCII text: a character
    above 127 is neither a letter nor white space here.  A JavaScript value
    that is either a string or [undefined] is an [option string]. *)

From Stdlib Require Import String Ascii List Bool Arith Lia.
Import ListNotations.
Open Scope bool_scope.
Open Scope string_scope.

(** ** JavaScript string primitives *)

(** The double quote and the line feed, which a literal cannot hold. *)
Definition dq_char : ascii := "034"%char.
Definition nl_char : ascii := "010"%char.
Definition dq : string := String dq_char EmptyString.
Definition nl : string := String nl_char EmptyString.

(** [s.startsWith(p)]. *)
Fixpoint startsWith (s p : string) : bool :=
  match p with
  | EmptyString => true
  | String a p' =>
      match s with
      | EmptyString => false
      | String b s' => Ascii.eqb a b && startsWith s' p'
      end
  end.

(** [s.includes(needle)]. *)
Fixpoint includes (s needle : string) : bool :=
  startsWith s needle ||
  match s with
  | EmptyString => false
  | String _ s' => includes s' needle
  end.

(** [s.endsWith(p)]. *)
Fixpoint endsWith (s p : string) : bool :=
  String.eqb s p ||
  match s with
  | EmptyString => false
  | String _ s' => endsWith s' p
  end.

(** Whether the character [c] occurs in [s]. *)
Fixpoint has_char (c : ascii) (s : string) : bool :=
  match s with
  | EmptyString => false
  | String x s' => Ascii.eqb x c || has_char c s'
  end.

(** [c.toUpperCase()] on one ASCII character. The model is exact on ASCII
    text only: [toUpperCase] also maps characters above 127, some of them to
    ASCII letters, and statements that depend on the case of a first character
    ask for [startsAscii]. *)
Definition upper_char (c : ascii) : ascii :=
  let n := nat_of_ascii c in
  if ((97 <=? n) && (n <=? 122))%nat then ascii_of_nat (n - 32) else c.

(** White space and line terminators below 128. *)
Definition is_space (c : ascii) : bool :=
  let n := nat_of_ascii c in
  (((9 <=? n) && (n <=? 13)) || (n =? 32))%nat.

(** [s.trimEnd()]. *)
Fixpoint trimEnd (s : string) : string :=
  match s with
  | EmptyString => EmptyString
  | String c s' =>
      match trimEnd s' with
      | EmptyString => if is_space c then EmptyString else String c EmptyString
      | t => String c t
      end
  end.

(** [parts.join(sep)] on an array of strings. *)
Fixpoint join (sep : string) (parts : list string) : string :=
  match parts with
  | [] => EmptyString
  | [p] => p
  | p :: rest => p ++ sep ++ join sep rest
  end.

(** A template literal written line by line. *)
Definition lines (ls : list string) : string := join nl ls.

(** [s.split(c)] for a one-character separator: never an empty array. *)
Fixpoint split (c : ascii) (s : string) : list string :=
  match s with
  | EmptyString => [EmptyString]
  | String x s' =>
      if Ascii.eqb x c then EmptyString :: split c s'
      else match split c s' with
           | [] => [String x EmptyString]
           | h :: t => String x h :: t
           end
  end.

(** A value spliced into a template literal: [undefined] prints its name. *)
Definition interp (v : option string) : string :=
  match v with
  | Some s => s
  | None => "undefined"
  end.

(** An array element under [join]: [undefined] prints nothing. *)
Definition joinItem (v : option string) : string :=
  match v with
  | Some s => s
  | None => EmptyString
  end.

(** [v == s] for a string [s]. *)
Definition looseEq (v : option string) (s : string) : bool :=
  match v with
  | Some t => String.eqb t s
  | None => false
  end.

Notation "v == s" := (looseEq v s) (at level 70, no associativity).

(** [s.charAt(0)], [s.slice(1)] and [s.toUpperCase()]. *)
Definition charAt0 (s : string) : string :=
  match s with
  | EmptyString => EmptyString
  | String c _ => String c EmptyString
  end.

Definition slice1 (s : string) : string :=
  match s with
  | EmptyString => EmptyString
  | String _ rest => rest
  end.

Fixpoint toUpperCase (s : string) : string :=
  match s with
  | EmptyString => EmptyString
  | String c rest => String (upper_char c) (toUpperCase rest)
  end.

(** [function titleCase(input)] *)
Definition titleCase (input : string) : string :=
  toUpperCase (charAt0 input) ++ slice1 input.

(** [type Field = { field: string; type: string }]; after the array
    destructuring of [form] either component may be [undefined]. *)
Record Field := mkField { field : option string; type : option string }.

(** [const [field, type] = arg.split(':'); return { field, type };] *)
Definition parseField (arg : string) : Field :=
  let parts := split ":" arg in
  {| field := nth_error parts 0; type := nth_error parts 1 |}.

(** A method call on a receiver that may be [undefined]: [None] is the
    TypeError. *)
Definition onString {A} (v : option string) (k : string -> A) : option A :=
  match v with
  | Some s => Some (k s)
  | None => None
  end.

(** [xs.map(f)] where [f] may throw. *)
Fixpoint mapM {A B} (f : A -> option B) (xs : list A) : option (list B) :=
  match xs with
  | [] => Some []
  | x :: xs' =>
      match f x with
      | None => None
      | Some y =>
          match mapM f xs' with
          | None => None
          | Some ys => Some (y :: ys)
          end
      end
  end.

(** ** Effects

    What the script does to the outside world is a trace of events; what the
    outside world answers is an environment of oracles. *)
Inductive Event :=
| ConsoleLog (msg : string)
| ConsoleError (msg : string)
| SpawnSync (cmd : list string)
| Readdir (path : string)
| FileText (path : string)
| BunWrite (path data : string).

(** A JavaScript value where the code expects a string: the string itself,
    or any other value by its truthiness. Undefined, null, false and 0 are
    falsy; true, the other numbers, objects and arrays are truthy. *)
Inductive JsValue :=
| JString (s : string)
| JOther (truthy : bool).

Record Env := mkEnv {
  (** [Bun.spawnSync({ cmd }).success] *)
  spawn_success : list string -> bool;
  (** whether [Bun.spawnSync({ cmd })] can start the executable; it throws
      when it cannot *)
  spawn_starts : list string -> bool;
  (** [crypto.randomUUID()] *)
  randomUUID : string;
  (** [readdir(path)]; [None] when it rejects *)
  readdir : string -> option (list string);
  (** [Bun.file(path).text()]; [None] when it rejects *)
  file_text : string -> option string;
  (** [JSON.parse(body)["name"]]: [None] when parsing or the property access
      throws, the falsy [JOther false] when the manifest declares no name *)
  json_name : string -> option JsValue;
  (** whether [Bun.write(path, data)] resolves *)
  write_ok : string -> bool
}.

(** How a computation ends: with a value, by [process.exit(code)], or by an
    uncaught exception. *)
Inductive Outcome (A : Type) :=
| Returned (a : A)
| Exited (code : nat)
| Thrown.
Arguments Returned {A} a.
Arguments Exited {A} code.
Arguments Thrown {A}.

Definition M (A : Type) : Type := list Event -> Outcome A * list Event.

Definition ret {A} (a : A) : M A := fun tr => (Returned a, tr).

Definition bind {A B} (m : M A) (k : A -> M B) : M B :=
  fun tr =>
    match m tr with
    | (Returned a, tr') => k a tr'
    | (Exited code, tr') => (Exited code, tr')
    | (Thrown, tr') => (Thrown, tr')
    end.

Notation "x <- m ;; k" := (bind m (fun x => k))
  (at level 61, m at next level, right associativity).
Notation "m ;;; k" := (bind m (fun _ => k))
  (at level 61, right associativity).

Definition emit (e : Event) : M unit := fun tr => (Returned tt, (tr ++ [e])%list).
Definition exit {A} (code : nat) : M A := fun tr => (Exited code, tr).
Definition throw {A} : M A := fun tr => (Thrown, tr).

(** A value that is there, or the exception of the step that failed. *)
Definition orThrow {A} (v : option A) : M A :=
  match v with
  | Some a => ret a
  | None => throw
  end.

Definition run {A} (m : M A) : Outcome A * list Event := m [].

(** [function renderHeader(renderedFields)], the same in both copies. *)
Definition importInput : string :=
  "  import { Input } from " ++ dq ++ "$ui/input" ++ dq ++ ";".
Definition importTextarea : string :=
  "  import { Textarea } from " ++ dq ++ "$ui/textarea" ++ dq ++ ";".

Definition renderHeader (renderedFields : string) : string :=
  let output := EmptyString in
  let output :=
    if includes renderedFields "Input" then output ++ importInput ++ nl else output in
  let output :=
    if includes renderedFields "Textarea" then output ++ importTextarea ++ nl else output in
  trimEnd output.

(** [function renderFormType(renderedFields)], the same in both copies. *)
Definition fileMarker : string := "type=" ++ dq ++ "file" ++ dq.
Definition enctype : string := "enctype=" ++ dq ++ "multipart/form-data" ++ dq.

Definition renderFormType (renderedFields : string) : string :=
  if includes renderedFields fileMarker then " " ++ enctype else EmptyString.

(** ** [src/index.ts] *)
Module Index.

(** [function renderInput({ field, type }, name)] *)
Definition renderInput (f : Field) (name : string) : string :=
  if type f == "textarea" then
    "<Textarea {...attrs} bind:value={$" ++ name ++ "Data." ++ interp (field f)
      ++ "} rows={4} />"
  else if type f == "files" then
    "<Input {...attrs} bind:value={$" ++ name ++ "Data." ++ interp (field f)
      ++ "} type=" ++ dq ++ "file" ++ dq ++ " multiple />"
  else
    "<Input {...attrs} bind:value={$" ++ name ++ "Data." ++ interp (field f)
      ++ "} type=" ++ dq ++ interp (type f) ++ dq ++ " />".

(** The template of [renderField], with the label already computed. *)
Definition fieldBlock (f : Field) (name label : string) : string :=
  lines [
    "  <Form.Field form={" ++ name ++ "} name=" ++ dq ++ interp (field f) ++ dq ++ ">";
    "    <Form.Control let:attrs>";
    "      <Form.Label>" ++ label ++ "</Form.Label>";
    "      " ++ renderInput f name;
    "    </Form.Control>";
    "    <Form.FieldErrors />";
    "  </Form.Field>"
  ].

(** [function renderField({ field, type }, name)]; [titleCase(field)] throws
    on an undefined [field]. *)
Definition renderField (f : Field) (name : string) : option string :=
  onString (field f) (fun s => fieldBlock f name (titleCase s)).

(** [function renderSchemaField({ field, type })] *)
Definition renderSchemaField (f : Field) : string :=
  if type f == "email" then
    "  " ++ interp (field f) ++ ": z.string().email(),"
  else if type f == "password" then
    "  " ++ interp (field f) ++ ": z.string().min(8, { message: " ++ dq
      ++ "Password must be minimum 8 characters" ++ dq ++ " }),"
  else if type f == "number" then
    "  " ++ interp (field f) ++ ": z.number(),"
  else if type f == "file" then
    "  " ++ interp (field f) ++ ": z.instanceof(File),"
  else if type f == "files" then
    "  " ++ interp (field f) ++ ": z.array(z.instanceof(File)),"
  else if type f == "date" then
    "  " ++ interp (field f) ++ ": z.date(),"
  else
    "  " ++ interp (field f) ++ ": z.string(),".


(** [async function projectName()]: [i] counts the iterations left of the
    [for] loop over ten folders. *)
Fixpoint projectNameFrom (env : Env) (i : nat) (folder : string) : M JsValue :=
  match i with
  | 0 => ret (JOther false)
  | S i' =>
      emit (Readdir folder) ;;;
      files <- orThrow (readdir env folder) ;;
      if existsb (String.eqb "package.json") files then
        emit (FileText (folder ++ "package.json")) ;;;
        body <- orThrow (file_text env (folder ++ "package.json")) ;;
        orThrow (json_name env body)
      else
        projectNameFrom env i' (if folder =? "." then "../" else folder ++ "../")
  end.

Definition projectName (env : Env) : M JsValue :=
  projectNameFrom env 10 ".".

(** [if (project)]: of the strings, only the empty one is falsy. *)
Definition truthy (v : JsValue) : bool :=
  match v with
  | JString (String _ _) => true
  | JString EmptyString => false
  | JOther b => b
  end.

(** [titleCase(project)] on the value the lookup returned: a value that is
    not a string has no [charAt], and the call throws. *)
Definition titleCaseOf (v : JsValue) : M string :=
  match v with
  | JString s => ret (titleCase s)
  | JOther _ => throw
  end.

(** [async function renderTitle(name)] *)
Definition renderTitle (env : Env) (name : string) : M string :=
  project <- projectName env ;;
  if truthy project then
    capital <- titleCaseOf project ;;
    ret (titleCase name ++ " - " ++ capital)
  else
    ret (titleCase name).

(** The template of [+page.svelte]. *)
Definition pageSvelte (name renderedHeader title renderedFields : string) : string :=
  lines [
    "<script lang=" ++ dq ++ "ts" ++ dq ++ ">";
    "  import * as Form from " ++ dq ++ "$ui/form" ++ dq ++ ";";
    renderedHeader;
    "  import { superForm } from " ++ dq ++ "sveltekit-superforms" ++ dq ++ ";";
    "  import Loader from " ++ dq ++ "lucide-svelte/icons/loader" ++ dq ++ ";";
    EmptyString;
    "  // Props";
    "  const { data } = $props();";
    "  const " ++ name ++ " = superForm(data." ++ name ++ ");";
    "  const { form: " ++ name ++ "Data, delayed: " ++ name ++ "Delayed, submitting: "
      ++ name ++ "Submitting, enhance: " ++ name ++ "Enhance } = " ++ name ++ ";";
    "</script>";
    EmptyString;
    "<svelte:head>";
    "  <title>" ++ title ++ "</title>";
    "</svelte:head>";
    EmptyString;
    "<h1 class=" ++ dq ++ "text-2xl font-bold mb-4" ++ dq ++ ">" ++ titleCase name ++ "</h1>";
    EmptyString;
    "<form class=" ++ dq ++ "grid gap-2" ++ dq ++ " method=" ++ dq ++ "post" ++ dq
      ++ " action=" ++ dq ++ "?/" ++ name ++ dq ++ renderFormType renderedFields
      ++ " use:" ++ name ++ "Enhance>";
    renderedFields;
    EmptyString;
    "  <Form.Button disabled={$" ++ name ++ "Submitting}>";
    "    {#if $" ++ name ++ "Delayed}";
    "      <Loader class=" ++ dq ++ "animate-spin" ++ dq ++ " />";
    "    {:else}";
    "      Submit";
    "    {/if}";
    "  </Form.Button>";
    "</form>"
  ].

(** The template of [+page.server.ts]. *)
Definition pageServer (name schemaName renderedSchemaFields fieldNames : string) : string :=
  lines [
    "import { z } from " ++ dq ++ "zod" ++ dq ++ ";";
    "import { zod } from " ++ dq ++ "sveltekit-superforms/adapters" ++ dq ++ ";";
    "import { fail, superValidate } from " ++ dq ++ "sveltekit-superforms" ++ dq ++ ";";
    "import type { Actions, PageServerLoad } from " ++ dq ++ "./$types" ++ dq ++ ";";
    EmptyString;
    "const " ++ schemaName ++ " = z.object({";
    renderedSchemaFields;
    "});";
    EmptyString;
    "export const load: PageServerLoad = async () => {";
    "  // Initialize form";
    "  return {";
    "    " ++ name ++ ": await superValidate(zod(" ++ schemaName ++ ")),";
    "  };";
    "};";
    EmptyString;
    "export const actions: Actions = {";
    "  " ++ name ++ ": async ({ request }) => {";
    "    // Validate form";
    "    const " ++ name ++ " = await superValidate(request, zod(" ++ schemaName ++ "));";
    "    if (!" ++ name ++ ".valid) return fail(400, { " ++ name ++ " });";
    "    const { " ++ fieldNames ++ " } = " ++ name ++ ".data;";
    "    console.log(" ++ fieldNames ++ ");";
    "  },";
    "};"
  ].

(** [fields.map((field) => renderField(field, name)).join("\n\n")] *)
Definition renderFields (fields : list Field) (name : string) : option string :=
  option_map (join (nl ++ nl)) (mapM (fun f => renderField f name) fields).

(** [fields.map(renderSchemaField).join("\n").trimEnd()] *)
Definition renderSchemaFields (fields : list Field) : string :=
  trimEnd (join nl (map renderSchemaField fields)).

(** [fields.map(({ field }) => field).join(", ")] *)
Definition fieldNames (fields : list Field) : string :=
  join ", " (map (fun f => joinItem (field f)) fields).

(** The two documents of [form], given what the project lookup returned:
    [None] when rendering throws. *)
Definition documents (title name : string) (args : list string) : option (string * string) :=
  let fields := map parseField args in
  match renderFields fields name with
  | None => None
  | Some renderedFields =>
      let renderedHeader := renderHeader renderedFields in
      let schemaName := name ++ "Schema" in
      Some (pageSvelte name renderedHeader title renderedFields,
            pageServer name schemaName (renderSchemaFields fields) (fieldNames fields))
  end.

(** [await Promise.all([Bun.write(p1, d1), Bun.write(p2, d2)])]: both writes
    are issued, the join throws when either rejects. *)
Definition writeBoth (env : Env) (p1 d1 p2 d2 : string) : M unit :=
  emit (BunWrite p1 d1) ;;;
  emit (BunWrite p2 d2) ;;;
  if write_ok env p1 && write_ok env p2 then ret tt else throw.

(** [async function form(name, args)] *)
Definition form (env : Env) (name : string) (args : list string) : M unit :=
  let fields := map parseField args in
  renderedFields <- orThrow (renderFields fields name) ;;
  let renderedHeader := renderHeader renderedFields in
  title <- renderTitle env name ;;
  let pageSvelte := pageSvelte name renderedHeader title renderedFields in
  let schemaName := name ++ "Schema" in
  let pageServer := pageServer name schemaName (renderSchemaFields fields) (fieldNames fields) in
  writeBoth env (name ++ "/+page.svelte") pageSvelte
                (name ++ "/+page.server.ts") pageServer ;;;
  emit (ConsoleLog ("Created " ++ name ++ "/+page.svelte")) ;;;
  emit (ConsoleLog ("Created " ++ name ++ "/+page.server.ts")).

(** The top level of the script, on [args = process.argv.slice(2)]. *)
Definition arg (args : list string) (i : nat) : string := interp (nth_error args i).

Definition cloneCmd (args : list string) : list string :=
  ["git"; "clone"; "https://github.com/svails/" ++ arg args 1; arg args 2].

Definition moveCmd (env : Env) (args : list string) : list string :=
  ["mv"; arg args 2 ++ "/.git"; "/tmp/" ++ randomUUID env].

Definition sedTitleCmd (args : list string) : list string :=
  ["find"; arg args 2; "-type"; "f"; "-exec"; "sed"; "-i";
   "s/Svails/" ++ titleCase (arg args 2) ++ "/g"; "{}"; "+"].

Definition sedLowerCmd (args : list string) : list string :=
  ["find"; arg args 2; "-type"; "f"; "!"; "-name"; "README.md"; "-exec"; "sed"; "-i";
   "s/svails\|svails-fullstack\|svails-api/" ++ arg args 2 ++ "/g"; "{}"; "+"].

(** [Bun.spawnSync({ cmd })]: the call throws when the executable cannot be
    started; otherwise [success] tells how the command ended. *)
Definition spawnSync (env : Env) (cmd : list string) : M bool :=
  emit (SpawnSync cmd) ;;;
  if spawn_starts env cmd then ret (spawn_success env cmd) else throw.

Definition main (env : Env) (args : list string) : M unit :=
  if (length args =? 0)%nat then
    emit (ConsoleLog "Usage:") ;;;
    emit (ConsoleLog "  svails init <field>") ;;;
    emit (ConsoleLog "  svails form <name> <field>:<type>") ;;;
    exit 1
  else
    let command := nth_error args 0 in
    if command == "init" then
      (if (length args <? 3)%nat then
         emit (ConsoleLog "Usage:") ;;;
         emit (ConsoleLog "  svails init <template> <name>") ;;;
         exit 1
       else ret tt) ;;;
      success <- spawnSync env (cloneCmd args) ;;
      (if negb success then
         emit (ConsoleError "Failed to clone the repository.") ;;;
         exit 1
       else ret tt) ;;;
      spawnSync env (moveCmd env args) ;;;
      spawnSync env (sedTitleCmd args) ;;;
      spawnSync env (sedLowerCmd args) ;;;
      ret tt
    else if command == "form" then
      (if (length args <? 3)%nat then
         emit (ConsoleLog "Usage:") ;;;
         emit (ConsoleLog "  svails form <name> <field>:<type>") ;;;
         exit 1
       else ret tt) ;;;
      form env (arg args 1) (skipn 2 args)
    else
      emit (ConsoleLog ("Unknown command: " ++ arg args 0)) ;;;
      exit 1.

End Index.

(** ** The older copy of the script ([src/unnamed/part_000]) *)
Module Part000.

(** [function renderInput({ field, type }, name)] *)
Definition renderInput (f : Field) (name : string) : string :=
  if type f == "textarea" then
    "<Textarea {...attrs} bind:value={$" ++ name ++ ".form." ++ interp (field f)
      ++ "} rows={4} />"
  else if type f == "files" then
    "<Input {...attrs} bind:value={$" ++ name ++ ".form." ++ interp (field f)
      ++ "} type=" ++ dq ++ "file" ++ dq ++ " multiple />"
  else
    "<Input {...attrs} bind:value={$" ++ name ++ ".form." ++ interp (field f)
      ++ "} type=" ++ dq ++ interp (field f) ++ dq ++ " />".

(** The template of [renderField], with the label already computed. *)
Definition fieldBlock (f : Field) (name label : string) : string :=
  lines [
    "  <Form.Field form={" ++ name ++ "} field=" ++ dq ++ interp (field f) ++ dq ++ ">";
    "    <Form.Control let:attrs>";
    "      <Form.Label>" ++ label ++ "</Form.Label>";
    "      " ++ renderInput f name;
    "    </Form.Control>";
    "    <Form.FieldErrors />";
    "  </Form.Field>"
  ].

(** [function renderField({ field, type }, name)]; [field.charAt(0)] throws on
    an undefined [field]. *)
Definition renderField (f : Field) (name : string) : option string :=
  onString (field f)
    (fun s => fieldBlock f name (toUpperCase (charAt0 s) ++ slice1 s)).

(** [function renderSchemaField({ field, type })] *)
Definition renderSchemaField (f : Field) : string :=
  if type f == "email" then
    "  " ++ interp (field f) ++ ": z.string().email(),"
  else if type f == "password" then
    "  " ++ interp (field f) ++ ": z.string().min(8, { message: " ++ dq
      ++ "Password must be minimum 8 characters" ++ dq ++ " }),"
  else if type f == "number" then
    "  " ++ interp (field f) ++ ": z.number(),"
  else if type f == "file" then
    "  " ++ interp (field f) ++ ": z.instanceof(File),"
  else if type f == "files" then
    "  " ++ interp (field f) ++ ": z.array(z.instanceof(File)),"
  else
    "  " ++ interp (field f) ++ ": z.string(),".

(** The template of [+page.svelte]. *)
Definition pageSvelte (name renderedHeader renderedFields : string) : string :=
  lines [
    "<script lang=" ++ dq ++ "ts" ++ dq ++ ">";
    "  import * as Form from " ++ dq ++ "$ui/form" ++ dq ++ ";";
    renderedHeader;
    "  import { superForm } from " ++ dq ++ "sveltekit-superforms" ++ dq ++ ";";
    "  import Loader from " ++ dq ++ "lucide-svelte/icons/loader" ++ dq ++ ";";
    EmptyString;
    "  // Props";
    "  const { data } = $props();";
    "  const " ++ name ++ " = superForm(data." ++ name ++ ");";
    "</script>";
    EmptyString;
    "<h1 class=" ++ dq ++ "text-xl font-bold mb-4" ++ dq ++ ">"
      ++ toUpperCase (charAt0 name) ++ slice1 name ++ "</h1>";
    EmptyString;
    "<form class=" ++ dq ++ "grid gap-2" ++ dq ++ " method=" ++ dq ++ "post" ++ dq
      ++ renderFormType renderedFields ++ " use:enhance={" ++ name ++ ".enhance}>";
    renderedFields;
    EmptyString;
    "  <Form.Button disabled={$" ++ name ++ ".submitting}>";
    "    {#if $" ++ name ++ ".delayed}";
    "      <Loader class=" ++ dq ++ "animate-spin" ++ dq ++ " />";
    "    {:else}";
    "      Submit";
    "    {/if}";
    "  </Form.Button>";
    "</form>"
  ].

(** The template of [+page.server.ts]. *)
Definition pageServer (name schemaName renderedSchemaFields fieldNames : string) : string :=
  lines [
    "import { z } from " ++ dq ++ "zod" ++ dq ++ ";";
    "import { zod } from " ++ dq ++ "sveltekit-superforms/adapters" ++ dq ++ ";";
    "import { fail, superValidate } from " ++ dq ++ "sveltekit-superforms" ++ dq ++ ";";
    "import { type Actions, type PageServerLoad } from " ++ dq ++ "./$types" ++ dq ++ ";";
    EmptyString;
    "const " ++ schemaName ++ " = z.object({";
    renderedSchemaFields;
    "});";
    EmptyString;
    "export const load: PageServerLoad = async () => {";
    "  // Initialize form";
    "  return {";
    "    " ++ name ++ ": await superValidate(zod(" ++ schemaName ++ ")),";
    "  };";
    "};";
    EmptyString;
    "export const actions: Actions = {";
    "  default: async ({ request }) => {";
    "    // Validate form";
    "    const " ++ name ++ " = await superValidate(request, zod(" ++ schemaName ++ "));";
    "    if (!" ++ name ++ ".valid) return fail(400, { form: " ++ name ++ " });";
    "    const { " ++ fieldNames ++ " } = " ++ name ++ ".data;";
    EmptyString;
    "    // Business logic";
    "  },";
    "};"
  ].

Definition renderFields (fields : list Field) (name : string) : option string :=
  option_map (join (nl ++ nl)) (mapM (fun f => renderField f name) fields).

Definition renderSchemaFields (fields : list Field) : string :=
  trimEnd (join nl (map renderSchemaField fields)).

Definition fieldNames (fields : list Field) : string :=
  join ", " (map (fun f => joinItem (field f)) fields).

(** The two documents of [form]: [None] when rendering throws. *)
Definition documents (name : string) (args : list string) : option (string * string) :=
  let fields := map parseField args in
  match renderFields fields name with
  | None => None
  | Some renderedFields =>
      let renderedHeader := renderHeader renderedFields in
      let schemaName := name ++ "Schema" in
      Some (pageSvelte name renderedHeader renderedFields,
            pageServer name schemaName (renderSchemaFields fields) (fieldNames fields))
  end.

(** [async function form(name, args)] *)
Definition form (env : Env) (name : string) (args : list string) : M unit :=
  let fields := map parseField args in
  renderedFields <- orThrow (renderFields fields name) ;;
  let renderedHeader := renderHeader renderedFields in
  let pageSvelte := pageSvelte name renderedHeader renderedFields in
  let schemaName := name ++ "Schema" in
  let pageServer := pageServer name schemaName (renderSchemaFields fields) (fieldNames fields) in
  Index.writeBoth env (name ++ "/+page.svelte") pageSvelte
                      (name ++ "/+page.server.ts") pageServer ;;;
  emit (ConsoleLog ("Created " ++ name ++ "/+page.svelte")) ;;;
  emit (ConsoleLog ("Created " ++ name ++ "/+page.server.ts")).

(** The top level of the older script, on [args = process.argv.slice(2)]:
    its init stops after the clone. *)
Definition main (env : Env) (args : list string) : M unit :=
  if (List.length args =? 0)%nat then
    emit (ConsoleLog "Usage:") ;;;
    emit (ConsoleLog "  svails init <field>") ;;;
    emit (ConsoleLog "  svails form <name> <field>:<type>") ;;;
    exit 1
  else
    let command := nth_error args 0 in
    if command == "init" then
      (if (List.length args <? 3)%nat then
         emit (ConsoleLog "Usage:") ;;;
         emit (ConsoleLog "  svails init <template> <name>") ;;;
         exit 1
       else ret tt) ;;;
      success <- Index.spawnSync env (Index.cloneCmd args) ;;
      (if negb success then
         emit (ConsoleError "Failed to clone the repository.") ;;;
         exit 1
       else ret tt)
    else if command == "form" then
      (if (List.length args <? 3)%nat then
         emit (ConsoleLog "Usage:") ;;;
         emit (ConsoleLog "  svails form <name> <field>:<type>") ;;;
         exit 1
       else ret tt) ;;;
      form env (Index.arg args 1) (skipn 2 args)
    else
      emit (ConsoleLog ("Unknown command: " ++ Index.arg args 0)) ;;;
      exit 1.

End Part000.

(** ** Vocabulary of the statements *)

(** The schema rules, for a field called [n]. *)
Definition ruleEmail (n : string) : string := "  " ++ n ++ ": z.string().email(),".
Definition rulePassword (n : string) : string :=
  "  " ++ n ++ ": z.string().min(8, { message: " ++ dq
    ++ "Password must be minimum 8 characters" ++ dq ++ " }),".
Definition ruleNumber (n : string) : string := "  " ++ n ++ ": z.number(),".
Definition ruleFile (n : string) : string := "  " ++ n ++ ": z.instanceof(File),".
Definition ruleFiles (n : string) : string := "  " ++ n ++ ": z.array(z.instanceof(File)),".
Definition ruleDate (n : string) : string := "  " ++ n ++ ": z.date(),".
Definition ruleString (n : string) : string := "  " ++ n ++ ": z.string(),".

(** The type tags with a rule of their own in [src/index.ts]. *)
Definition knownTypes : list (option string) :=
  [Some "email"; Some "password"; Some "number"; Some "file"; Some "files"; Some "date"].

(** The type tag of an argument, and the widget its field renders. *)
Definition typeOf (a : string) : option string := type (parseField a).
Definition isFileInput (a : string) : bool := (typeOf a == "file") || (typeOf a == "files").

(** The field block that [src/index.ts] renders for an argument. *)
Definition blockOf (name a : string) : string :=
  Index.fieldBlock (parseField a) name (titleCase (interp (field (parseField a)))).

(** The files a run has asked to write, in order. *)
Fixpoint written (tr : list Event) : list (string * string) :=
  match tr with
  | [] => []
  | BunWrite p d :: tr' => (p, d) :: written tr'
  | _ :: tr' => written tr'
  end.

(** The commands a run has spawned, in order. *)
Fixpoint spawned (tr : list Event) : list (list string) :=
  match tr with
  | [] => []
  | SpawnSync cmd :: tr' => cmd :: spawned tr'
  | _ :: tr' => spawned tr'
  end.

(** The folder that [projectName] lists at its [k]-th iteration. *)
Fixpoint folderAt (k : nat) : string :=
  match k with
  | 0 => "."
  | 1 => "../"
  | S k' => folderAt k' ++ "../"
  end.

(** The title that [renderTitle] returns when the lookup returned [project]:
    none when [project] is truthy and not a string. *)
Definition titleFor (project : JsValue) (name : string) : option string :=
  if Index.truthy project then
    match project with
    | JString s => Some (titleCase name ++ " - " ++ titleCase s)
    | JOther _ => None
    end
  else Some (titleCase name).

(** The status with which the process ends: an uncaught exception ends it with
    status 1. *)
Definition status {A : Type} (o : Outcome A) : nat :=
  match o with
  | Returned _ => 0
  | Exited code => code
  | Thrown => 1
  end.

(** The folders listed by the first [k] iterations of [projectName]. *)
Definition listed (k : nat) : list Event :=
  map (fun j => Readdir (folderAt j)) (seq 0 k).

(** A folder that can be listed and holds no manifest. *)
Definition noManifest (env : Env) (folder : string) : Prop :=
  exists files, readdir env folder = Some files
                /\ existsb (String.eqb "package.json") files = false.

(** A folder that can be listed and holds a manifest. *)
Definition hasManifest (env : Env) (folder : string) : Prop :=
  exists files, readdir env folder = Some files
                /\ existsb (String.eqb "package.json") files = true.

(** Three file systems: a tree without any manifest; a project whose
    manifest, declaring the name app, is in the parent folder; the same
    project seen from its root. A path that names no file cannot be read. *)
Definition manifestBody : string :=
  "{ " ++ dq ++ "name" ++ dq ++ ": " ++ dq ++ "app" ++ dq ++ " }".

Definition envBare : Env :=
  {| spawn_success := fun _ => false;
     spawn_starts := fun _ => true;
     randomUUID := "0000";
     readdir := fun _ => Some ["src"];
     file_text := fun _ => None;
     json_name := fun _ => None;
     write_ok := fun _ => true |}.

Definition envNested : Env :=
  {| spawn_success := fun _ => false;
     spawn_starts := fun _ => true;
     randomUUID := "0000";
     readdir := fun p => if p =? "../" then Some ["package.json"; "src"] else Some ["routes"];
     file_text := fun p => if p =? "../package.json" then Some manifestBody else None;
     json_name := fun b => if b =? manifestBody then Some (JString "app") else None;
     write_ok := fun _ => true |}.

Definition envRoot : Env :=
  {| spawn_success := fun _ => false;
     spawn_starts := fun _ => true;
     randomUUID := "0000";
     readdir := fun p => if p =? "." then Some ["package.json"; "src"] else Some [];
     file_text := fun p =>
       if (p =? "package.json") || (p =? "./package.json") then Some manifestBody else None;
     json_name := fun b => if b =? manifestBody then Some (JString "app") else None;
     write_ok := fun _ => true |}.

(** The field block that the older copy renders for an argument. *)
Definition blockOf000 (name a : string) : string :=
  Part000.fieldBlock (parseField a) name (titleCase (interp (field (parseField a)))).

(** The fields for which the older copy renders the marker of a file type:
    the multiple file input, and any other input whose field is called
    file. *)
Definition isFileInput000 (a : string) : bool :=
  (typeOf a == "files")
  || (negb (typeOf a == "textarea") && (interp (field (parseField a)) =? "file")).

(** The import lines of the widgets whose names occur in a text. *)
Definition usedImports (renderedFields : string) : list string :=
  ((if includes renderedFields "Input" then [importInput] else [])
   ++ (if includes renderedFields "Textarea" then [importTextarea] else []))%list.

(** How often a character occurs, and the number of lines of a text. *)
Fixpoint count_char (c : ascii) (s : string) : nat :=
  match s with
  | EmptyString => 0
  | String x s' => (if Ascii.eqb x c then 1 else 0) + count_char c s'
  end.

Definition lineCount (s : string) : nat := S (count_char nl_char s).

(** Events by kind. *)
Definition isConsoleLog (e : Event) : bool :=
  match e with
  | ConsoleLog _ => true
  | _ => false
  end.

Fixpoint listings (tr : list Event) : nat :=
  match tr with
  | [] => 0
  | Readdir _ :: tr' => S (listings tr')
  | _ :: tr' => listings tr'
  end.

Fixpoint fileReads (tr : list Event) : nat :=
  match tr with
  | [] => 0
  | FileText _ :: tr' => S (fileReads tr')
  | _ :: tr' => fileReads tr'
  end.

(** The notices and messages a run has printed, in order. *)
Fixpoint printed (tr : list Event) : list string :=
  match tr with
  | [] => []
  | ConsoleLog m :: tr' => m :: printed tr'
  | ConsoleError m :: tr' => m :: printed tr'
  | _ :: tr' => printed tr'
  end.

(** Two more file systems: a project whose manifest, one level up, declares
    no name; and a tree whose parent folder cannot be listed. *)
Definition envNameless : Env :=
  {| spawn_success := fun _ => true;
     spawn_starts := fun _ => true;
     randomUUID := "0000";
     readdir := fun p => if p =? "../" then Some ["package.json"] else Some ["routes"];
     file_text := fun p => if p =? "../package.json" then Some "{}" else None;
     json_name := fun b => if b =? "{}" then Some (JOther false) else None;
     write_ok := fun _ => true |}.

Definition envLocked : Env :=
  {| spawn_success := fun _ => true;
     spawn_starts := fun _ => true;
     randomUUID := "0000";
     readdir := fun p => if p =? "." then Some ["routes"] else None;
     file_text := fun _ => None;
     json_name := fun _ => None;
     write_ok := fun _ => false |}.

(** Three more environments: a project whose manifest, one level up,
    declares the number 5 as its name; a machine without git; and one without
    mv. *)
Definition envNumbered : Env :=
  {| spawn_success := fun _ => true;
     spawn_starts := fun _ => true;
     randomUUID := "0000";
     readdir := fun p => if p =? "../" then Some ["package.json"] else Some ["routes"];
     file_text := fun p => if p =? "../package.json" then Some "{ name: 5 }" else None;
     json_name := fun b => if b =? "{ name: 5 }" then Some (JOther true) else None;
     write_ok := fun _ => true |}.

Definition envNoGit : Env :=
  {| spawn_success := fun _ => true;
     spawn_starts := fun cmd => negb (hd EmptyString cmd =? "git");
     randomUUID := "0000";
     readdir := fun _ => Some ["src"];
     file_text := fun _ => None;
     json_name := fun _ => None;
     write_ok := fun _ => true |}.

Definition envNoMv : Env :=
  {| spawn_success := fun _ => true;
     spawn_starts := fun cmd => negb (hd EmptyString cmd =? "mv");
     randomUUID := "0000";
     readdir := fun _ => Some ["src"];
     file_text := fun _ => None;
     json_name := fun _ => None;
     write_ok := fun _ => true |}.

(** How often a needle occurs in a text, overlapping occurrences included. *)
Fixpoint countOcc (s needle : string) : nat :=
  (if startsWith s needle then 1 else 0) +
  match s with
  | EmptyString => 0
  | String _ s' => countOcc s' needle
  end.

(** The text that opens a field block, and the text that separates the field
    name from its schema rule. *)
Definition blockOpener : string := "<Form.Field ".
Definition ruleMark : string := ": z.".

(** Whether a text is empty or starts with an ASCII character, on which
    [upper_char] is what [toUpperCase] does. *)
Definition startsAscii (s : string) : bool :=
  match s with
  | EmptyString => true
  | String c _ => (nat_of_ascii c <? 128)%nat
  end.

(** * Properties *)

(** ** Strings *)
Section StringFacts.

Lemma append_nil_r (s : string) : s ++ EmptyString = s.
Proof. induction s as [|c s IH]; simpl; [reflexivity | now rewrite IH]. Qed.

Lemma append_assoc (a b c : string) : (a ++ b) ++ c = a ++ b ++ c.
Proof. induction a as [|x a IH]; simpl; [reflexivity | now rewrite IH]. Qed.

Lemma has_char_app (c : ascii) (a b : string) :
  has_char c (a ++ b) = has_char c a || has_char c b.
Proof.
  induction a as [|x a IH]; simpl; [reflexivity|].
  now rewrite IH, orb_assoc.
Qed.

Lemma startsWith_nil (s : string) : startsWith s EmptyString = true.
Proof. now destruct s. Qed.

Lemma startsWith_app (p r : string) : startsWith (p ++ r) p = true.
Proof.
  induction p as [|c p IH]; simpl; [apply startsWith_nil|].
  now rewrite Ascii.eqb_refl, IH.
Qed.

Lemma startsWith_inv (s p : string) :
  startsWith s p = true -> exists r, s = p ++ r.
Proof.
  revert s; induction p as [|c p IH]; intros s H.
  - now exists s.
  - destruct s as [|x s]; simpl in H; [discriminate|].
    apply andb_true_iff in H as [Hc Hp].
    apply Ascii.eqb_eq in Hc; subst x.
    destruct (IH _ Hp) as [r ->]. now exists r.
Qed.

Lemma includes_startsWith (s n : string) :
  startsWith s n = true -> includes s n = true.
Proof. intros H. destruct s; cbn [includes]; now rewrite H. Qed.

(** [includes] finds exactly the substrings. *)
Lemma includes_intro (a n b : string) : includes (a ++ n ++ b) n = true.
Proof.
  induction a as [|x a IH].
  - apply includes_startsWith, (startsWith_app n b).
  - cbn [append includes]. rewrite IH. apply orb_true_r.
Qed.

Lemma includes_inv (s n : string) :
  includes s n = true -> exists a b, s = a ++ n ++ b.
Proof.
  induction s as [|x s IH]; cbn [includes]; intros H.
  - rewrite orb_false_r in H. apply startsWith_inv in H as [r ->].
    now exists EmptyString, r.
  - apply orb_true_iff in H as [H|H].
    + apply startsWith_inv in H as [r ->]. now exists EmptyString, r.
    + destruct (IH H) as (a & b & ->). now exists (String x a), b.
Qed.

Lemma includes_spec (s n : string) :
  includes s n = true <-> exists a b, s = a ++ n ++ b.
Proof.
  split; [apply includes_inv|]. intros (a & b & ->). apply includes_intro.
Qed.

Lemma includes_app_l (a b n : string) :
  includes a n = true -> includes (a ++ b) n = true.
Proof.
  intros H. apply includes_inv in H as (x & y & ->).
  rewrite !append_assoc. apply includes_intro.
Qed.

Lemma includes_app_r (a b n : string) :
  includes b n = true -> includes (a ++ b) n = true.
Proof.
  intros H. apply includes_inv in H as (x & y & ->).
  rewrite <- append_assoc. apply includes_intro.
Qed.

(** A substring brings all its characters along. *)
Lemma startsWith_has_char (c : ascii) (s p : string) :
  startsWith s p = true -> has_char c p = true -> has_char c s = true.
Proof.
  intros H Hc. apply startsWith_inv in H as [r ->].
  now rewrite has_char_app, Hc.
Qed.

Lemma includes_has_char (c : ascii) (s n : string) :
  has_char c n = true -> has_char c s = false -> includes s n = false.
Proof.
  intros Hn Hs. destruct (includes s n) eqn:E; [|reflexivity].
  apply includes_inv in E as (a & b & ->).
  rewrite !has_char_app, Hn, orb_true_r in Hs. discriminate.
Qed.

(** A character that the needle lacks cuts the haystack in two. *)
Lemma startsWith_cut (c : ascii) (u r n : string) :
  has_char c n = false ->
  startsWith (u ++ String c r) n = startsWith u n.
Proof.
  revert u; induction n as [|a n IH]; intros u H; [now rewrite !startsWith_nil|].
  simpl in H. apply orb_false_iff in H as [Hac Hn].
  destruct u as [|x u]; simpl.
  - now rewrite Hac.
  - now rewrite IH.
Qed.

Lemma includes_cut (c : ascii) (u r n : string) :
  has_char c n = false ->
  includes (u ++ String c r) n = includes u n || includes r n.
Proof.
  intros H. induction u as [|x u IH].
  - change (EmptyString ++ String c r) with (String c r).
    cbn [includes].
    replace (startsWith (String c r) n) with (startsWith EmptyString n).
    + now rewrite orb_false_r.
    + now rewrite <- (startsWith_cut c EmptyString r n H).
  - cbn [append includes].
    change (String x (u ++ String c r)) with (String x u ++ String c r).
    rewrite startsWith_cut by assumption.
    rewrite IH. now rewrite !orb_assoc.
Qed.

(** The needle [p ++ String q s], with [q] absent from [p], met at the first
    [q] of the haystack. *)
Lemma startsWith_upto (q : ascii) (u r p s : string) :
  has_char q u = false -> has_char q p = false ->
  startsWith (u ++ String q r) (p ++ String q s) = (u =? p) && startsWith r s.
Proof.
  revert u; induction p as [|a p IH]; intros u Hu Hp.
  - destruct u as [|x u]; simpl.
    + now rewrite Ascii.eqb_refl.
    + simpl in Hu. apply orb_false_iff in Hu as [Hx _].
      rewrite Ascii.eqb_sym, Hx. reflexivity.
  - simpl in Hp. apply orb_false_iff in Hp as [Ha Hp].
    destruct u as [|x u]; simpl.
    + now rewrite Ha.
    + simpl in Hu. apply orb_false_iff in Hu as [Hx Hu].
      rewrite IH by assumption.
      rewrite (Ascii.eqb_sym x a). now rewrite andb_assoc.
Qed.

Lemma includes_upto (q : ascii) (u r p s : string) :
  has_char q u = false -> has_char q p = false ->
  includes (u ++ String q r) (p ++ String q s)
  = (endsWith u p && startsWith r s) || includes r (p ++ String q s).
Proof.
  intros Hu Hp. induction u as [|x u IH].
  - change (EmptyString ++ String q r) with (String q r).
    cbn [includes endsWith].
    pose proof (startsWith_upto q EmptyString r p s Hu Hp) as E.
    cbn [append] in E. now rewrite E, orb_false_r.
  - simpl in Hu. apply orb_false_iff in Hu as [Hx Hu].
    cbn [append includes endsWith].
    change (String x (u ++ String q r)) with (String x u ++ String q r).
    rewrite startsWith_upto by (simpl; try rewrite Hx; assumption).
    rewrite (IH Hu).
    rewrite andb_orb_distrib_l. now rewrite !orb_assoc.
Qed.

(** Joining with a separator that starts with a character foreign to the
    needle: the needle is in the whole exactly when it is in a part. *)
Lemma includes_join1 (c : ascii) (n : string) (parts : list string) :
  has_char c n = false -> includes EmptyString n = false ->
  includes (join (String c EmptyString) parts) n
  = existsb (fun p => includes p n) parts.
Proof.
  intros Hc He. induction parts as [|p rest IH]; [exact He|].
  destruct rest as [|p2 rest].
  - cbn [join existsb]. now rewrite orb_false_r.
  - change (join (String c EmptyString) (p :: p2 :: rest))
      with (p ++ String c (join (String c EmptyString) (p2 :: rest))).
    rewrite includes_cut by assumption. now rewrite IH.
Qed.

Lemma includes_join2 (c : ascii) (n : string) (parts : list string) :
  has_char c n = false -> includes EmptyString n = false ->
  includes (join (String c (String c EmptyString)) parts) n
  = existsb (fun p => includes p n) parts.
Proof.
  intros Hc He. induction parts as [|p rest IH]; [exact He|].
  destruct rest as [|p2 rest].
  - cbn [join existsb]. now rewrite orb_false_r.
  - change (join (String c (String c EmptyString)) (p :: p2 :: rest))
      with (p ++ String c (EmptyString ++
              String c (join (String c (String c EmptyString)) (p2 :: rest)))).
    rewrite !includes_cut by assumption. now rewrite IH, He.
Qed.


(** A part of a joined text is a substring of it. *)
Lemma includes_join_part (sep n p : string) (parts : list string) :
  In p parts -> includes p n = true -> includes (join sep parts) n = true.
Proof.
  intros Hin Hp. induction parts as [|p1 rest IH]; [contradiction|].
  destruct rest as [|p2 rest].
  - destruct Hin as [->|[]]. exact Hp.
  - change (join sep (p1 :: p2 :: rest)) with (p1 ++ sep ++ join sep (p2 :: rest)).
    destruct Hin as [->|Hin].
    + now apply includes_app_l.
    + apply includes_app_r, includes_app_r. now apply IH.
Qed.

(** Upper-casing a character neither makes nor removes a double quote; it
    makes a capital letter only from that letter. *)
Lemma upper_char_dq (x : ascii) :
  Ascii.eqb (upper_char x) dq_char = Ascii.eqb x dq_char.
Proof. destruct x as [[] [] [] [] [] [] [] []]; reflexivity. Qed.



Lemma titleCase_dq (s : string) :
  has_char dq_char (titleCase s) = has_char dq_char s.
Proof. destruct s as [|x s]; [reflexivity|]. cbn. now rewrite upper_char_dq. Qed.

End StringFacts.

(** ** The two needles that hold a double quote

    [includes_upto] at the marker of a file type and at the multipart
    attribute, each cut at its first double quote. *)

Lemma includes_upto_fileMarker (u r : string) :
  has_char dq_char u = false ->
  includes (u ++ String dq_char r) fileMarker
  = (endsWith u "type=" && startsWith r ("file" ++ dq)) || includes r fileMarker.
Proof. intros Hu. now apply (includes_upto dq_char u r "type=" ("file" ++ dq)). Qed.

Lemma startsWith_upto_file (u r : string) :
  has_char dq_char u = false ->
  startsWith (u ++ String dq_char r) ("file" ++ dq) = (u =? "file").
Proof.
  intros Hu. unfold dq.
  rewrite (startsWith_upto dq_char u r "file" EmptyString Hu eq_refl).
  now rewrite startsWith_nil, andb_true_r.
Qed.

Lemma includes_upto_enctype (u r : string) :
  has_char dq_char u = false ->
  includes (u ++ String dq_char r) enctype
  = (endsWith u "enctype=" && startsWith r ("multipart/form-data" ++ dq))
    || includes r enctype.
Proof.
  intros Hu.
  now apply (includes_upto dq_char u r "enctype=" ("multipart/form-data" ++ dq)).
Qed.

Lemma includes_no_dq_fileMarker (u : string) :
  has_char dq_char u = false -> includes u fileMarker = false.
Proof. now apply includes_has_char. Qed.

Lemma includes_no_dq_enctype (u : string) :
  has_char dq_char u = false -> includes u enctype = false.
Proof. now apply includes_has_char. Qed.

(** Walks a haystack made of literal text and of spliced texts without a
    double quote: literal characters are compared by computation, a spliced
    text is stepped over with one of the lemmas above. *)
Ltac walk :=
  repeat (cbn;
    first
      [ rewrite includes_cut by reflexivity
      | rewrite includes_upto_fileMarker by assumption
      | rewrite includes_upto_enctype by assumption
      | rewrite startsWith_upto_file by assumption
      | rewrite includes_no_dq_fileMarker by assumption
      | rewrite includes_no_dq_enctype by assumption
      | rewrite andb_false_r
      | rewrite orb_false_r ]).

(** ** Parsing an argument *)
Section Parsing.

Lemma split_cons (c : ascii) (s : string) : exists h t, split c s = h :: t.
Proof.
  induction s as [|x s (h & t & IH)]; cbn [split]; [now eexists _, _|].
  destruct (Ascii.eqb x c); [now eexists _, _|].
  rewrite IH. now eexists _, _.
Qed.

Lemma split_none (c : ascii) (s : string) :
  has_char c s = false -> split c s = [s].
Proof.
  induction s as [|x s IH]; cbn [split has_char]; [reflexivity|].
  intros H. apply orb_false_iff in H as [Hx Hs].
  now rewrite Hx, IH.
Qed.

Lemma split_first (c : ascii) (a b : string) :
  has_char c a = false -> split c (a ++ String c b) = a :: split c b.
Proof.
  induction a as [|x a IH]; cbn [append split has_char].
  - intros _. now rewrite Ascii.eqb_refl.
  - intros H. apply orb_false_iff in H as [Hx Ha].
    now rewrite Hx, IH.
Qed.

(** The pieces of a text hold no character that the text lacks. *)
Lemma split_has_char (x c : ascii) (s : string) :
  has_char x s = false -> Forall (fun p => has_char x p = false) (split c s).
Proof.
  induction s as [|y s IH]; cbn [split has_char]; intros H.
  - now constructor.
  - apply orb_false_iff in H as [Hy Hs]. specialize (IH Hs).
    destruct (Ascii.eqb y c).
    + now constructor.
    + destruct (split c s) as [|h t]; inversion IH; subst;
        constructor; cbn [has_char]; try rewrite Hy; auto.
Qed.

Lemma parseField_field (a : string) : exists f, field (parseField a) = Some f.
Proof.
  unfold parseField. destruct (split_cons ":" a) as (h & t & ->). now exists h.
Qed.

Lemma parseField_has_char (x : ascii) (a : string) :
  has_char x a = false ->
  has_char x (interp (field (parseField a))) = false
  /\ (forall t, type (parseField a) = Some t -> has_char x t = false).
Proof.
  intros H. pose proof (split_has_char x ":" a H) as F.
  unfold parseField. destruct (split_cons ":" a) as (h & r0 & E).
  rewrite E in *. destruct r0 as [|t r]; cbn.
  - inversion F; subst. split; [assumption | discriminate].
  - inversion F as [|? ? Hh F']; subst. inversion F'; subst.
    split; [assumption|]. now intros ? [= <-].
Qed.


End Parsing.

(** ** Rendering one field *)
Section Rendering.

Lemma renderField_some (a name : string) :
  exists f, field (parseField a) = Some f
            /\ Index.renderField (parseField a) name
               = Some (Index.fieldBlock (parseField a) name (titleCase f))
            /\ Part000.renderField (parseField a) name
               = Some (Part000.fieldBlock (parseField a) name (titleCase f)).
Proof.
  destruct (parseField_field a) as [f Hf]. exists f.
  unfold Index.renderField, Part000.renderField. now rewrite Hf.
Qed.

Lemma looseEq_true (v : option string) (s : string) :
  (v == s) = true <-> v = Some s.
Proof.
  destruct v as [t|]; cbn.
  - rewrite String.eqb_eq. split; [now intros -> | now intros [= ->]].
  - split; discriminate.
Qed.

Lemma looseEq_false (v : option string) (s : string) :
  (v == s) = false <-> v <> Some s.
Proof.
  rewrite <- looseEq_true. destruct (v == s); split; congruence.
Qed.

End Rendering.

(** C10: parsing an argument never fails. The field name is the text
    before the first colon (all of it when there is none); the type tag is the
    text between the first and the second colon (undefined when there is
    none); what follows a second colon is dropped; and both copies render the
    parsed field to a string. *)
Theorem parseField_total (a b rest name : string)
  (Ha : has_char ":" a = false) (Hb : has_char ":" b = false) :
  parseField a = {| field := Some a; type := None |}
  /\ parseField (a ++ ":" ++ b) = {| field := Some a; type := Some b |}
  /\ parseField (a ++ ":" ++ b ++ ":" ++ rest) = {| field := Some a; type := Some b |}
  /\ (forall arg, exists f, field (parseField arg) = Some f)
  /\ (forall arg, exists s, Index.renderField (parseField arg) name = Some s)
  /\ (forall arg, exists s, Part000.renderField (parseField arg) name = Some s).
Proof.
  repeat split.
  - unfold parseField. now rewrite split_none.
  - unfold parseField. cbn [append].
    rewrite split_first by assumption. now rewrite split_none.
  - unfold parseField. cbn [append].
    rewrite split_first by assumption. now rewrite split_first.
  - apply parseField_field.
  - intros arg. destruct (renderField_some arg name) as (f & _ & H & _). eauto.
  - intros arg. destruct (renderField_some arg name) as (f & _ & _ & H). eauto.
Qed.

Lemma parseField_total_witness :
  has_char ":" "age" = false /\ has_char ":" "number" = false
  /\ parseField "age" = {| field := Some "age"; type := None |}
  /\ parseField "age:number" = {| field := Some "age"; type := Some "number" |}
  /\ parseField "age:number:int:8" = {| field := Some "age"; type := Some "number" |}.
Proof.
  destruct (parseField_total "age" "number" "int:8" "f" eq_refl eq_refl)
    as (H1 & H2 & H3 & _).
  exact (conj eq_refl (conj eq_refl (conj H1 (conj H2 H3)))).
Defined.

(** ** The documents of a run *)
Section Documents.

Lemma mapM_renderField_index (name : string) (args : list string) :
  exists blocks,
    mapM (fun f => Index.renderField f name) (map parseField args) = Some blocks
    /\ blocks = map (fun a => Index.fieldBlock (parseField a) name
                                (titleCase (interp (field (parseField a))))) args.
Proof.
  induction args as [|a args (blocks & IH & ->)]; [now exists []|].
  destruct (renderField_some a name) as (f & Hf & H & _).
  eexists. cbn [map mapM]. rewrite H, IH, Hf. split; reflexivity.
Qed.

Lemma mapM_renderField_part000 (name : string) (args : list string) :
  exists blocks,
    mapM (fun f => Part000.renderField f name) (map parseField args) = Some blocks
    /\ blocks = map (fun a => Part000.fieldBlock (parseField a) name
                                (titleCase (interp (field (parseField a))))) args.
Proof.
  induction args as [|a args (blocks & IH & ->)]; [now exists []|].
  destruct (renderField_some a name) as (f & Hf & _ & H).
  eexists. cbn [map mapM]. rewrite H, IH, Hf. split; reflexivity.
Qed.

(** Rendering the fields of parsed arguments never throws. *)
Lemma renderFields_index (name : string) (args : list string) :
  Index.renderFields (map parseField args) name
  = Some (join (nl ++ nl)
            (map (fun a => Index.fieldBlock (parseField a) name
                             (titleCase (interp (field (parseField a))))) args)).
Proof.
  unfold Index.renderFields.
  destruct (mapM_renderField_index name args) as (blocks & -> & ->). reflexivity.
Qed.

Lemma renderFields_part000 (name : string) (args : list string) :
  Part000.renderFields (map parseField args) name
  = Some (join (nl ++ nl)
            (map (fun a => Part000.fieldBlock (parseField a) name
                             (titleCase (interp (field (parseField a))))) args)).
Proof.
  unfold Part000.renderFields.
  destruct (mapM_renderField_part000 name args) as (blocks & -> & ->). reflexivity.
Qed.

(** [trimEnd] leaves alone a text that ends in a character that is not
    white space. *)
Lemma trimEnd_nonempty (s : string) (c : ascii) :
  is_space c = false -> trimEnd (s ++ String c EmptyString) = s ++ String c EmptyString.
Proof.
  intros Hc. induction s as [|x s IH]; cbn [append trimEnd].
  - now rewrite Hc.
  - rewrite IH. destruct s; reflexivity.
Qed.

Lemma endsWith_inv (s p : string) :
  endsWith s p = true -> exists a, s = a ++ p.
Proof.
  induction s as [|x s IH]; cbn [endsWith]; intros H.
  - rewrite orb_false_r in H. apply String.eqb_eq in H as <-. now exists EmptyString.
  - apply orb_true_iff in H as [H|H].
    + apply String.eqb_eq in H as <-. now exists EmptyString.
    + destruct (IH H) as [a ->]. now exists (String x a).
Qed.

Lemma endsWith_app (a b p : string) :
  endsWith b p = true -> endsWith (a ++ b) p = true.
Proof.
  intros H. induction a as [|x a IH]; [exact H|].
  cbn [append endsWith]. rewrite IH. apply orb_true_r.
Qed.

Lemma join_endsWith (sep p : string) (parts : list string) :
  parts <> [] -> Forall (fun r => endsWith r p = true) parts ->
  endsWith (join sep parts) p = true.
Proof.
  induction parts as [|r rest IH]; [congruence|]. intros _ F.
  inversion F as [|? ? Hr Hrest]; subst.
  destruct rest as [|r2 rest]; [exact Hr|].
  change (join sep (r :: r2 :: rest)) with (r ++ sep ++ join sep (r2 :: rest)).
  apply endsWith_app, endsWith_app, IH; [discriminate | assumption].
Qed.

Lemma trimEnd_join_rules (rules : list string) :
  Forall (fun r => endsWith r "," = true) rules ->
  trimEnd (join nl rules) = join nl rules.
Proof.
  intros F. destruct rules as [|r rules]; [reflexivity|].
  destruct (endsWith_inv _ _ (join_endsWith nl "," (r :: rules) ltac:(discriminate) F))
    as [s' ->].
  now apply trimEnd_nonempty.
Qed.

Lemma renderSchemaField_index_comma (f : Field) :
  endsWith (Index.renderSchemaField f) "," = true.
Proof.
  unfold Index.renderSchemaField.
  repeat match goal with |- context [if ?b then _ else _] => destruct b end;
    repeat apply endsWith_app; reflexivity.
Qed.

Lemma renderSchemaField_part000_comma (f : Field) :
  endsWith (Part000.renderSchemaField f) "," = true.
Proof.
  unfold Part000.renderSchemaField.
  repeat match goal with |- context [if ?b then _ else _] => destruct b end;
    repeat apply endsWith_app; reflexivity.
Qed.

Lemma renderSchemaFields_index (fields : list Field) :
  Index.renderSchemaFields fields = join nl (map Index.renderSchemaField fields).
Proof.
  apply trimEnd_join_rules, Forall_forall. intros r Hr.
  apply in_map_iff in Hr as (f & <- & _). apply renderSchemaField_index_comma.
Qed.

Lemma renderSchemaFields_part000 (fields : list Field) :
  Part000.renderSchemaFields fields = join nl (map Part000.renderSchemaField fields).
Proof.
  apply trimEnd_join_rules, Forall_forall. intros r Hr.
  apply in_map_iff in Hr as (f & <- & _). apply renderSchemaField_part000_comma.
Qed.

End Documents.

Section DocumentsOfArgs.

(** The documents of [src/index.ts], in closed form. *)
Lemma documents_index (title name : string) (args : list string) :
  let blocks := map (fun a => Index.fieldBlock (parseField a) name
                                (titleCase (interp (field (parseField a))))) args in
  let rules := map (fun a => Index.renderSchemaField (parseField a)) args in
  Index.documents title name args
  = Some (Index.pageSvelte name (renderHeader (join (nl ++ nl) blocks)) title
            (join (nl ++ nl) blocks),
          Index.pageServer name (name ++ "Schema") (join nl rules)
            (Index.fieldNames (map parseField args))).
Proof.
  cbv zeta. unfold Index.documents.
  rewrite renderFields_index, renderSchemaFields_index, map_map. reflexivity.
Qed.

(** The documents of the older copy, in closed form. *)
Lemma documents_part000 (name : string) (args : list string) :
  let blocks := map (fun a => Part000.fieldBlock (parseField a) name
                                (titleCase (interp (field (parseField a))))) args in
  let rules := map (fun a => Part000.renderSchemaField (parseField a)) args in
  Part000.documents name args
  = Some (Part000.pageSvelte name (renderHeader (join (nl ++ nl) blocks))
            (join (nl ++ nl) blocks),
          Part000.pageServer name (name ++ "Schema") (join nl rules)
            (Part000.fieldNames (map parseField args))).
Proof.
  cbv zeta. unfold Part000.documents.
  rewrite renderFields_part000, renderSchemaFields_part000, map_map. reflexivity.
Qed.

End DocumentsOfArgs.


(** C5: an argument without a colon does not make the renderer fail.
    The whole argument is the field name and the type tag is undefined; the
    field then takes the branch of an unrecognised type: its schema rule is
    the generic string rule and its input is the single-line widget of the
    last branch, whose type attribute spells the undefined tag. *)
Theorem no_colon_falls_back (arg name : string) (H : has_char ":" arg = false) :
  parseField arg = {| field := Some arg; type := None |}
  /\ Index.renderSchemaField (parseField arg) = ruleString arg
  /\ Index.renderInput (parseField arg) name
     = "<Input {...attrs} bind:value={$" ++ name ++ "Data." ++ arg
         ++ "} type=" ++ dq ++ "undefined" ++ dq ++ " />"
  /\ Index.renderInput (parseField arg) name
     = Index.renderInput {| field := Some arg; type := Some "undefined" |} name
  /\ Index.renderSchemaField (parseField arg)
     = Index.renderSchemaField {| field := Some arg; type := Some "undefined" |}
  /\ Index.renderField (parseField arg) name
     = Some (Index.fieldBlock (parseField arg) name (titleCase arg))
  /\ (forall title args, In arg args ->
        exists view server, Index.documents title name args = Some (view, server)).
Proof.
  assert (E : parseField arg = {| field := Some arg; type := None |})
    by (unfold parseField; now rewrite split_none).
  rewrite E. repeat split.
  intros title args _. rewrite documents_index. eauto.
Qed.

Lemma no_colon_falls_back_witness :
  has_char ":" "nickname" = false
  /\ parseField "nickname" = {| field := Some "nickname"; type := None |}
  /\ Index.renderSchemaField (parseField "nickname") = "  nickname: z.string(),".
Proof.
  destruct (no_colon_falls_back "nickname" "signup" eq_refl) as (H1 & H2 & _).
  exact (conj eq_refl (conj H1 H2)).
Defined.

(** C1, as amended: in [src/index.ts] each of the six type tags has its
    fixed rule and every other tag, the undefined one included, has the
    generic string rule; the older copy has the same rules except that it
    knows no date rule, so that the tag date gets the generic string rule
    there. *)
Theorem schema_rule_by_type (fld ty : option string) :
  let n := interp fld in
  (Index.renderSchemaField (mkField fld (Some "email")) = ruleEmail n
   /\ Index.renderSchemaField (mkField fld (Some "password")) = rulePassword n
   /\ Index.renderSchemaField (mkField fld (Some "number")) = ruleNumber n
   /\ Index.renderSchemaField (mkField fld (Some "file")) = ruleFile n
   /\ Index.renderSchemaField (mkField fld (Some "files")) = ruleFiles n
   /\ Index.renderSchemaField (mkField fld (Some "date")) = ruleDate n)
  /\ (Part000.renderSchemaField (mkField fld (Some "email")) = ruleEmail n
      /\ Part000.renderSchemaField (mkField fld (Some "password")) = rulePassword n
      /\ Part000.renderSchemaField (mkField fld (Some "number")) = ruleNumber n
      /\ Part000.renderSchemaField (mkField fld (Some "file")) = ruleFile n
      /\ Part000.renderSchemaField (mkField fld (Some "files")) = ruleFiles n
      /\ Part000.renderSchemaField (mkField fld (Some "date")) = ruleString n)
  /\ (~ In ty knownTypes ->
      Index.renderSchemaField (mkField fld ty) = ruleString n
      /\ Part000.renderSchemaField (mkField fld ty) = ruleString n).
Proof.
  cbv zeta. split; [|split]; [repeat split .. |].
  intros Hty.
  assert (E : forall s, In (Some s) knownTypes -> (ty == s) = false).
  { intros s Hs. apply looseEq_false. intros ->. exact (Hty Hs). }
  unfold Index.renderSchemaField, Part000.renderSchemaField. cbn [type].
  rewrite !E by (cbn; tauto). split; reflexivity.
Qed.

Lemma schema_rule_by_type_witness :
  ~ In (Some "text") knownTypes
  /\ Index.renderSchemaField (mkField (Some "bio") (Some "text")) = "  bio: z.string(),"
  /\ Part000.renderSchemaField (mkField (Some "bio") (Some "text")) = "  bio: z.string(),".
Proof.
  assert (H : ~ In (Some "text") knownTypes)
    by (cbn; intros H; repeat destruct H as [H|H]; try discriminate H; exact H).
  split; [exact H|].
  exact (proj2 (proj2 (schema_rule_by_type (Some "bio") (Some "text"))) H).
Defined.

(** C1 as stated fails: the older copy gives a date field the generic
    string rule, not the date rule. *)
Lemma part000_has_no_date_rule :
  Part000.renderSchemaField (mkField (Some "born") (Some "date")) = ruleString "born"
  /\ Part000.renderSchemaField (mkField (Some "born") (Some "date")) <> ruleDate "born"
  /\ Index.renderSchemaField (mkField (Some "born") (Some "date")) = ruleDate "born".
Proof. repeat split. intros H. vm_compute in H. discriminate H. Qed.

(** C9: the two copies of the renderer are not equivalent. Their
    documents differ for every form name and every list of arguments, and in
    particular for a form with one date field; the date rule, the type
    attribute of the last input branch and the key of the action handler
    differ. *)
Theorem renderers_differ :
  (exists title name args, Index.documents title name args <> Part000.documents name args)
  /\ (forall title name args, Index.documents title name args <> Part000.documents name args)
  /\ Index.renderSchemaField (mkField (Some "born") (Some "date"))
     <> Part000.renderSchemaField (mkField (Some "born") (Some "date"))
  /\ Index.renderInput (mkField (Some "born") (Some "date")) "user"
     <> Part000.renderInput (mkField (Some "born") (Some "date")) "user"
  /\ (forall name schemaName rules names,
        includes (Index.pageServer name schemaName rules names)
          ("  " ++ name ++ ": async ({ request }) => {") = true)
  /\ (forall name schemaName rules names,
        includes (Part000.pageServer name schemaName rules names)
          "  default: async ({ request }) => {" = true).
Proof.
  assert (U : forall title name args,
             Index.documents title name args <> Part000.documents name args).
  { intros title name args H.
    rewrite documents_index, documents_part000 in H.
    apply (f_equal (fun o => match o with Some (_, s) => s | None => EmptyString end)) in H.
    cbv beta iota in H. discriminate H. }
  split; [exists "User", "user", ["born:date"]; apply U|].
  split; [exact U|].
  split; [intros H; vm_compute in H; discriminate H|].
  split; [intros H; vm_compute in H; discriminate H|].
  split; intros name schemaName rules names.
  - apply (includes_join_part nl _ ("  " ++ name ++ ": async ({ request }) => {")).
    + cbn. tauto.
    + apply includes_startsWith.
      rewrite <- (append_nil_r ("  " ++ name ++ ": async ({ request }) => {")) at 1.
      apply startsWith_app.
  - apply (includes_join_part nl _ "  default: async ({ request }) => {").
    + cbn. tauto.
    + reflexivity.
Qed.

(** ** The init command *)

(** C6: when the clone fails, whether git ends without success or cannot
    be started at all, init ends the process with status 1 and the clone is
    the only command it has spawned: neither the move of the metadata folder
    nor either substitution runs. After a clone that ran and failed, init has
    reported the failure on the error stream and called [process.exit(1)];
    when git cannot be started, the exception of [Bun.spawnSync] is not caught
    and ends the process. *)
Theorem clone_failure_stops_init (env : Env) (args : list string)
  (Hcmd : nth_error args 0 = Some "init")
  (Hlen : 3 <= List.length args)
  (Hfail : spawn_starts env (Index.cloneCmd args) = false
           \/ spawn_success env (Index.cloneCmd args) = false) :
  status (fst (run (Index.main env args))) = 1
  /\ spawned (snd (run (Index.main env args))) = [Index.cloneCmd args]
  /\ ~ In (SpawnSync (Index.moveCmd env args)) (snd (run (Index.main env args)))
  /\ ~ In (SpawnSync (Index.sedTitleCmd args)) (snd (run (Index.main env args)))
  /\ ~ In (SpawnSync (Index.sedLowerCmd args)) (snd (run (Index.main env args)))
  /\ (spawn_starts env (Index.cloneCmd args) = true ->
      run (Index.main env args)
      = (Exited 1, [SpawnSync (Index.cloneCmd args);
                    ConsoleError "Failed to clone the repository."]))
  /\ (spawn_starts env (Index.cloneCmd args) = false ->
      run (Index.main env args) = (Thrown, [SpawnSync (Index.cloneCmd args)])).
Proof.
  assert (E : run (Index.main env args)
              = if spawn_starts env (Index.cloneCmd args)
                then (Exited 1, [SpawnSync (Index.cloneCmd args);
                                 ConsoleError "Failed to clone the repository."])
                else (Thrown, [SpawnSync (Index.cloneCmd args)])).
  { destruct args as [|a0 [|a1 [|a2 rest]]]; cbn [List.length] in Hlen; try lia.
    cbn [nth_error] in Hcmd. injection Hcmd as ->.
    unfold run, Index.main, Index.spawnSync, bind, emit, exit, ret, throw.
    cbn [List.length Nat.eqb Nat.ltb Nat.leb nth_error looseEq app negb].
    change ("init" =? "init") with true. cbv iota.
    destruct (spawn_starts env (Index.cloneCmd _)) eqn:S; [|reflexivity].
    destruct Hfail as [Hfail|Hfail]; [discriminate Hfail|].
    rewrite Hfail. reflexivity. }
  rewrite E.
  destruct (spawn_starts env (Index.cloneCmd args)); cbn [fst snd status spawned In];
    repeat split; try discriminate;
    intros H; repeat destruct H as [H|H]; try discriminate H; exact H.
Qed.

Lemma clone_failure_stops_init_witness :
  nth_error ["init"; "fullstack"; "shop"] 0 = Some "init"
  /\ 3 <= List.length ["init"; "fullstack"; "shop"]
  /\ spawn_success envBare (Index.cloneCmd ["init"; "fullstack"; "shop"]) = false
  /\ run (Index.main envBare ["init"; "fullstack"; "shop"])
     = (Exited 1,
        [SpawnSync ["git"; "clone"; "https://github.com/svails/fullstack"; "shop"];
         ConsoleError "Failed to clone the repository."])
  /\ spawn_starts envNoGit (Index.cloneCmd ["init"; "fullstack"; "shop"]) = false
  /\ status (fst (run (Index.main envNoGit ["init"; "fullstack"; "shop"]))) = 1
  /\ spawned (snd (run (Index.main envNoGit ["init"; "fullstack"; "shop"])))
     = [["git"; "clone"; "https://github.com/svails/fullstack"; "shop"]].
Proof.
  split; [reflexivity|]. split; [exact (le_n 3)|]. split; [reflexivity|].
  destruct (clone_failure_stops_init envBare ["init"; "fullstack"; "shop"]
              eq_refl (le_n 3) (or_intror eq_refl)) as (_ & _ & _ & _ & _ & A & _).
  destruct (clone_failure_stops_init envNoGit ["init"; "fullstack"; "shop"]
              eq_refl (le_n 3) (or_introl eq_refl)) as (B & C & _).
  split; [exact (A eq_refl)|]. split; [reflexivity|]. exact (conj B C).
Defined.

(** ** The project lookup and the title *)
Section Lookup.

Variable env : Env.

Lemma folderAt_up (k : nat) : exists r, folderAt (S k) = "../" ++ r.
Proof.
  induction k as [|k [r IH]]; [now exists EmptyString|].
  exists (r ++ "../"). change (folderAt (S (S k))) with (folderAt (S k) ++ "../").
  now rewrite IH.
Qed.

(** The step of the loop from one folder to the next. *)
Lemma folderAt_next (k : nat) :
  (if folderAt k =? "." then "../" else folderAt k ++ "../") = folderAt (S k).
Proof.
  destruct k as [|k]; [reflexivity|].
  destruct (folderAt_up k) as [r E]. rewrite E at 1.
  cbn [append String.eqb Ascii.eqb Bool.eqb]. reflexivity.
Qed.

Lemma projectNameFrom_bare (i k : nat) (tr : list Event) :
  (forall j, k <= j < k + i -> noManifest env (folderAt j)) ->
  Index.projectNameFrom env i (folderAt k) tr
  = (Returned (JOther false),
     (tr ++ map (fun j => Readdir (folderAt j)) (seq k i))%list).
Proof.
  revert k tr. induction i as [|i IH]; intros k tr H.
  - cbn. now rewrite app_nil_r.
  - destruct (H k ltac:(lia)) as (files & Hdir & Hnone).
    cbn [Index.projectNameFrom]. unfold bind, emit, orThrow.
    rewrite Hdir. unfold ret. rewrite Hnone, folderAt_next.
    rewrite IH by (intros j Hj; apply H; lia).
    cbn [seq map]. now rewrite <- app_assoc.
Qed.

Lemma projectNameFrom_found (i k : nat) (tr : list Event) :
  hasManifest env (folderAt k) ->
  Index.projectNameFrom env (S i) (folderAt k) tr
  = let tr' := (tr ++ [Readdir (folderAt k); FileText (folderAt k ++ "package.json")])%list in
    match file_text env (folderAt k ++ "package.json") with
    | None => (Thrown, tr')
    | Some body =>
        match json_name env body with
        | None => (Thrown, tr')
        | Some v => (Returned v, tr')
        end
    end.
Proof.
  intros (files & Hdir & Hsome).
  cbn [Index.projectNameFrom]. unfold bind, emit, orThrow.
  rewrite Hdir. unfold ret. rewrite Hsome, <- app_assoc. cbn [app].
  destruct (file_text env _) as [body|]; [|reflexivity].
  destruct (json_name env body); reflexivity.
Qed.

(** The lookup when the first manifest is [k] levels up, [k] below ten: the
    file it reads is named by gluing the folder and the file name. *)
Lemma projectName_found (k : nat) :
  k < 10 ->
  (forall j, j < k -> noManifest env (folderAt j)) ->
  hasManifest env (folderAt k) ->
  run (Index.projectName env)
  = let tr' := (listed (S k) ++ [FileText (folderAt k ++ "package.json")])%list in
    match file_text env (folderAt k ++ "package.json") with
    | None => (Thrown, tr')
    | Some body =>
        match json_name env body with
        | None => (Thrown, tr')
        | Some v => (Returned v, tr')
        end
    end.
Proof.
  intros Hk Hbare Hman. unfold run, Index.projectName.
  assert (G : forall i k0 tr, k0 + i = k ->
            Index.projectNameFrom env (i + (10 - k)) (folderAt k0) tr
            = Index.projectNameFrom env (10 - k) (folderAt k)
                (tr ++ map (fun j => Readdir (folderAt j)) (seq k0 i))%list).
  { induction i as [|i IH]; intros k0 tr E.
    - cbn. rewrite app_nil_r. now replace k0 with k by lia.
    - destruct (Hbare k0 ltac:(lia)) as (files & Hdir & Hnone).
      cbn [Nat.add Index.projectNameFrom]. unfold bind, emit, orThrow.
      rewrite Hdir. unfold ret. rewrite Hnone, folderAt_next.
      rewrite IH by lia. cbn [seq map]. now rewrite <- app_assoc. }
  specialize (G k 0 [] eq_refl). replace (k + (10 - k)) with 10 in G by lia.
  change (folderAt 0) with "." in G. rewrite G.
  destruct (10 - k) as [|i] eqn:E; [lia|].
  rewrite projectNameFrom_found by assumption. cbv zeta.
  unfold listed. rewrite seq_S, map_app. cbn [Nat.add map app].
  rewrite <- !app_assoc. reflexivity.
Qed.

(** The lookup when none of the ten folders holds a manifest. *)
Lemma projectName_bare :
  (forall j, j < 10 -> noManifest env (folderAt j)) ->
  run (Index.projectName env) = (Returned (JOther false), listed 10).
Proof.
  intros H. unfold run, Index.projectName.
  change "." with (folderAt 0). rewrite projectNameFrom_bare; [reflexivity|].
  intros j Hj. apply H. lia.
Qed.

Lemma run_renderTitle (name : string) :
  run (Index.renderTitle env name)
  = match run (Index.projectName env) with
    | (Returned project, tr) =>
        match titleFor project name with
        | Some title => (Returned title, tr)
        | None => (Thrown, tr)
        end
    | (Exited code, tr) => (Exited code, tr)
    | (Thrown, tr) => (Thrown, tr)
    end.
Proof.
  unfold run, Index.renderTitle, bind, titleFor.
  destruct (Index.projectName env []) as [[project| |] tr]; try reflexivity.
  destruct project as [[|c s]|[|]]; reflexivity.
Qed.

(** X10: the title fails open: without a manifest in the ten folders it is
    the capitalised form name, and the ten folders have been listed. *)
Lemma renderTitle_fails_open (name : string) :
  (forall j, j < 10 -> noManifest env (folderAt j)) ->
  run (Index.renderTitle env name) = (Returned (titleCase name), listed 10).
Proof.
  intros H. rewrite run_renderTitle, projectName_bare by assumption. reflexivity.
Qed.

(** X11: with the first manifest [k] levels up, [k] from one to nine,
    readable and declaring a name that is not empty, the title carries the
    capitalised project name. *)
Lemma renderTitle_manifest_above (name body project : string) (k : nat) :
  1 <= k < 10 ->
  (forall j, j < k -> noManifest env (folderAt j)) ->
  hasManifest env (folderAt k) ->
  file_text env (folderAt k ++ "package.json") = Some body ->
  json_name env body = Some (JString project) ->
  project <> EmptyString ->
  fst (run (Index.renderTitle env name))
  = Returned (titleCase name ++ " - " ++ titleCase project).
Proof.
  intros Hk Hbare Hman Hbody Hname Hne.
  rewrite run_renderTitle, (projectName_found k) by (lia || assumption).
  cbv zeta. rewrite Hbody, Hname. cbn [fst]. unfold titleFor.
  destruct project; [congruence | reflexivity].
Qed.

(** With the manifest in the working folder itself, the file that is read is
    not the manifest: its name lacks the separator. *)
Lemma renderTitle_manifest_here (name : string) :
  hasManifest env "." ->
  file_text env ".package.json" = None ->
  run (Index.renderTitle env name) = (Thrown, [Readdir "."; FileText ".package.json"]).
Proof.
  intros Hman Hnone.
  rewrite run_renderTitle, (projectName_found 0); [|lia|intros j Hj; lia|exact Hman].
  cbv zeta. change (folderAt 0 ++ "package.json") with ".package.json".
  rewrite Hnone. reflexivity.
Qed.

End Lookup.

(** C8, at the input where the code departs from it: in a project
    whose manifest, declaring the name app, is in the working folder, the
    manifest is found at the first iteration, yet title rendering ends in an
    uncaught exception: the file it tries to read is [.package.json]. A
    manifest one level up is read and gives the suffixed title; a tree without
    a manifest gives the plain title. *)
Theorem title_lookup_misses_manifest_in_cwd :
  hasManifest envRoot "."
  /\ file_text envRoot "./package.json" = Some manifestBody
  /\ json_name envRoot manifestBody = Some (JString "app")
  /\ run (Index.renderTitle envRoot "login")
     = (Thrown, [Readdir "."; FileText ".package.json"])
  /\ fst (run (Index.renderTitle envNested "login")) = Returned "Login - App"
  /\ fst (run (Index.renderTitle envBare "login")) = Returned "Login".
Proof.
  assert (H : hasManifest envRoot ".") by (eexists; split; reflexivity).
  split; [exact H|]. split; [reflexivity|]. split; [reflexivity|].
  split; [now apply renderTitle_manifest_here|]. split; reflexivity.
Qed.

(** ** A run of [form] *)
Section FormRun.

Lemma written_app (a b : list Event) :
  written (a ++ b)%list = (written a ++ written b)%list.
Proof.
  induction a as [|e a IH]; [reflexivity|].
  destruct e; cbn [app written]; now rewrite IH.
Qed.

(** The project lookup writes no file. *)
Lemma written_projectNameFrom (env : Env) (i : nat) (folder : string) (tr : list Event) :
  written (snd (Index.projectNameFrom env i folder tr)) = written tr.
Proof.
  revert folder tr. induction i as [|i IH]; intros folder tr; [reflexivity|].
  cbn [Index.projectNameFrom]. unfold bind, emit, orThrow, ret, throw.
  destruct (readdir env folder) as [files|];
    [|cbn [snd]; rewrite written_app; cbn; apply app_nil_r].
  destruct (existsb (String.eqb "package.json") files).
  - destruct (file_text env _) as [body|];
      [destruct (json_name env body)|];
      cbn [snd]; rewrite !written_app; cbn; now rewrite !app_nil_r.
  - rewrite IH, written_app. cbn. apply app_nil_r.
Qed.

(** What a run of [form] does: the lookup, then the two writes of the documents
    rendered with the title of that lookup, then the two notices. *)
Lemma run_form (env : Env) (name : string) (args : list string) :
  run (Index.form env name args)
  = match run (Index.projectName env) with
    | (Returned project, tr) =>
        match titleFor project name with
        | None => (Thrown, tr)
        | Some title =>
            match Index.documents title name args with
            | Some (view, server) =>
                let p1 := name ++ "/+page.svelte" in
                let p2 := name ++ "/+page.server.ts" in
                let tr' := (tr ++ [BunWrite p1 view; BunWrite p2 server])%list in
                if write_ok env p1 && write_ok env p2
                then (Returned tt,
                      (tr' ++ [ConsoleLog ("Created " ++ p1);
                               ConsoleLog ("Created " ++ p2)])%list)
                else (Thrown, tr')
            | None => (Thrown, [])
            end
        end
    | (Exited code, tr) => (Exited code, tr)
    | (Thrown, tr) => (Thrown, tr)
    end.
Proof.
  unfold Index.documents, Index.form.
  rewrite renderFields_index.
  unfold run, bind at 1. cbn [orThrow ret].
  unfold bind at 1.
  pose proof (run_renderTitle env name) as T. unfold run in T. rewrite T.
  destruct (Index.projectName env []) as [[project| |] tr]; try reflexivity.
  destruct (titleFor project name) as [title|]; [|reflexivity].
  unfold Index.writeBoth, bind, emit, ret, throw.
  cbv zeta.
  destruct (write_ok env _ && write_ok env _);
    rewrite <- ?app_assoc; cbn [app]; reflexivity.
Qed.

End FormRun.

(** C7, as amended: two runs of [form] with the same arguments, in two
    environments in which the project lookup ends the same way, ask to write
    the same two files with the same bytes. *)
Theorem documents_depend_on_lookup (env1 env2 : Env) (name : string) (args : list string)
  (H : fst (run (Index.projectName env1)) = fst (run (Index.projectName env2))) :
  written (snd (run (Index.form env1 name args)))
  = written (snd (run (Index.form env2 name args))).
Proof.
  rewrite !run_form.
  pose proof (written_projectNameFrom env1 10 "." []) as W1.
  pose proof (written_projectNameFrom env2 10 "." []) as W2.
  unfold run, Index.projectName in *.
  destruct (Index.projectNameFrom env1 10 "." []) as [o1 tr1].
  destruct (Index.projectNameFrom env2 10 "." []) as [o2 tr2].
  cbn [fst snd] in *. subst o2.
  destruct o1 as [project| |]; cbn [snd]; [|congruence..].
  destruct (titleFor project name) as [title|]; cbn [snd]; [|congruence].
  rewrite documents_index. cbv zeta.
  destruct (write_ok env1 _ && write_ok env1 _), (write_ok env2 _ && write_ok env2 _);
    cbn [snd]; rewrite !written_app, W1, W2; reflexivity.
Qed.

Lemma documents_depend_on_lookup_witness :
  fst (run (Index.projectName envBare))
  = fst (run (Index.projectName
                (mkEnv (fun _ => true) (fun _ => true) "1111" (fun _ => Some ["lib"])
                   (fun _ => None) (fun _ => None) (fun _ => false))))
  /\ written (snd (run (Index.form envBare "login" ["email:email"])))
     = written (snd (run (Index.form
                (mkEnv (fun _ => true) (fun _ => true) "1111" (fun _ => Some ["lib"])
                   (fun _ => None) (fun _ => None) (fun _ => false)) "login" ["email:email"]))).
Proof.
  split; [reflexivity|].
  exact (documents_depend_on_lookup envBare _ "login" ["email:email"] eq_refl).
Defined.

(** C7 as stated fails: the same arguments give two different view
    documents in a tree without a manifest and in a project whose manifest is
    one level up. *)
Lemma same_args_different_views :
  written (snd (run (Index.form envBare "login" ["email:email"])))
  <> written (snd (run (Index.form envNested "login" ["email:email"]))).
Proof.
  intros H.
  apply (f_equal (fun w => match w with
                           | (_, view) :: _ => includes view "<title>Login - App</title>"
                           | [] => false
                           end)) in H.
  vm_compute in H. discriminate H.
Qed.

(** ** What the rendered text of a field contains *)
Section BlockText.

Variables (f : Field) (name label : string).



(** A file input, single or multiple, renders the marker of a file type. *)
Lemma fieldBlock_fileMarker :
  (type f == "file") || (type f == "files") = true ->
  includes (Index.fieldBlock f name label) fileMarker = true.
Proof.
  intros H. unfold Index.fieldBlock, lines.
  apply (includes_join_part nl fileMarker ("      " ++ Index.renderInput f name));
    [cbn; tauto|].
  apply includes_app_r. unfold Index.renderInput.
  destruct (type f == "textarea") eqn:Ta.
  - apply looseEq_true in Ta. rewrite Ta in H. discriminate H.
  - destruct (type f == "files") eqn:Fs.
    + do 4 apply includes_app_r. reflexivity.
    + rewrite orb_false_r in H. apply looseEq_true in H. rewrite H. cbn [interp].
      do 4 apply includes_app_r. reflexivity.
Qed.



End BlockText.

Section BlockQuotes.

Variables (fld ty : option string) (name label : string).
Hypothesis Hn : has_char dq_char name = false.
Hypothesis Hf : has_char dq_char (interp fld) = false.
Hypothesis Ht : has_char dq_char (interp ty) = false.
Hypothesis Hl : has_char dq_char label = false.

Lemma interp_eqb (v : option string) (s : string) :
  s <> "undefined" -> (interp v =? s) = (v == s).
Proof.
  intros Hs. destruct v as [t|]; [reflexivity|]. cbn [interp looseEq].
  apply String.eqb_neq. congruence.
Qed.

(** Without a double quote in the spliced texts, the marker of a file type is
    in the block exactly when the field is a file input. *)
Lemma fieldBlock_fileMarker_iff :
  includes (Index.fieldBlock (mkField fld ty) name label) fileMarker
  = (ty == "file") || (ty == "files").
Proof.
  unfold Index.fieldBlock, lines, nl.
  rewrite includes_join1 by reflexivity.
  unfold Index.renderInput. cbn [field type existsb].
  remember (interp fld) as fs. remember (interp ty) as ts.
  destruct (ty == "textarea") eqn:Ta; [|destruct (ty == "files") eqn:Fs].
  - apply looseEq_true in Ta. subst ty. walk. reflexivity.
  - apply looseEq_true in Fs. subst ty. walk. reflexivity.
  - walk. subst ts. rewrite interp_eqb by discriminate. reflexivity.
Qed.

(** Nor does the block hold the multipart attribute. *)
Lemma fieldBlock_enctype :
  includes (Index.fieldBlock (mkField fld ty) name label) enctype = false.
Proof.
  unfold Index.fieldBlock, lines, nl.
  rewrite includes_join1 by reflexivity.
  unfold Index.renderInput. cbn [field type existsb].
  remember (interp fld) as fs. remember (interp ty) as ts.
  destruct (ty == "textarea"); [|destruct (ty == "files")]; walk; reflexivity.
Qed.

End BlockQuotes.

(** ** What the rendered fields and the view document contain *)
Section FieldsText.

Variable name : string.


Lemma interp_type_has_char (x : ascii) (a : string) :
  has_char x a = false -> has_char x "undefined" = false ->
  has_char x (interp (type (parseField a))) = false.
Proof.
  intros Ha Hu. destruct (type (parseField a)) as [t|] eqn:E; [|exact Hu].
  now apply (proj2 (parseField_has_char x a Ha)).
Qed.




Lemma renderedFields_fileMarker (args : list string) :
  existsb isFileInput args = true ->
  includes (join (nl ++ nl) (map (blockOf name) args)) fileMarker = true.
Proof.
  intros H. apply existsb_exists in H as (a & Hin & Ha).
  apply (includes_join_part _ _ (blockOf name a)); [now apply in_map|].
  unfold blockOf. apply fieldBlock_fileMarker. exact Ha.
Qed.

Lemma existsb_map_ext {A : Type} (g : A -> string) (p : string -> bool) (q : A -> bool)
  (l : list A) :
  Forall (fun a => p (g a) = q a) l -> existsb p (map g l) = existsb q l.
Proof.
  induction 1 as [|a l Ha _ IH]; [reflexivity|]. cbn. now rewrite Ha, IH.
Qed.



Hypothesis Hname : has_char dq_char name = false.

Lemma renderedFields_fileMarker_iff (args : list string) :
  Forall (fun a => has_char dq_char a = false) args ->
  includes (join (nl ++ nl) (map (blockOf name) args)) fileMarker = existsb isFileInput args.
Proof.
  intros F. unfold nl at 1 2. cbn [append].
  rewrite includes_join2 by reflexivity.
  apply existsb_map_ext. eapply Forall_impl; [|exact F].
  intros a Ha. unfold blockOf, isFileInput, typeOf.
  destruct (parseField a) as [fld ty] eqn:E.
  pose proof (parseField_has_char dq_char a Ha) as [Hf Ht].
  pose proof (interp_type_has_char dq_char a Ha eq_refl) as Ht'.
  rewrite E in *. cbn [field type] in *.
  apply fieldBlock_fileMarker_iff; try assumption.
  now rewrite titleCase_dq.
Qed.

Lemma renderedFields_enctype (args : list string) :
  Forall (fun a => has_char dq_char a = false) args ->
  includes (join (nl ++ nl) (map (blockOf name) args)) enctype = false.
Proof.
  intros F. unfold nl at 1 2. cbn [append].
  rewrite includes_join2 by reflexivity.
  rewrite (existsb_map_ext (blockOf name) _ (fun _ => false)).
  - induction args; [reflexivity | cbn; apply IHargs; now inversion F].
  - eapply Forall_impl; [|exact F].
    intros a Ha. unfold blockOf.
    destruct (parseField a) as [fld ty] eqn:E.
    pose proof (parseField_has_char dq_char a Ha) as [Hf Ht].
    pose proof (interp_type_has_char dq_char a Ha eq_refl) as Ht'.
    rewrite E in *. cbn [field type] in *.
    apply fieldBlock_enctype; try assumption.
    now rewrite titleCase_dq.
Qed.



Lemma renderHeader_enctype (rf : string) : includes (renderHeader rf) enctype = false.
Proof.
  unfold renderHeader.
  destruct (includes rf "Input"), (includes rf "Textarea"); reflexivity.
Qed.

(** The form tag of the view document carries the multipart attribute when
    the rendered fields hold the marker of a file type. *)
Lemma pageSvelte_enctype_intro (header title rf : string) :
  includes rf fileMarker = true ->
  includes (Index.pageSvelte name header title rf) enctype = true.
Proof.
  intros H. unfold Index.pageSvelte, lines.
  eapply includes_join_part; [do 18 right; left; reflexivity|].
  unfold renderFormType. rewrite H.
  do 13 apply includes_app_r. apply includes_app_l. reflexivity.
Qed.

(** Without a double quote in the spliced texts, the attribute is nowhere
    else in the view document. *)
Lemma pageSvelte_enctype_iff (header title rf : string) :
  has_char dq_char title = false ->
  includes header enctype = false ->
  includes rf enctype = false ->
  includes (Index.pageSvelte name header title rf) enctype = includes rf fileMarker.
Proof.
  intros Ht Hh Hrf.
  pose proof (titleCase_dq name) as Htn. rewrite Hname in Htn.
  unfold Index.pageSvelte, lines, nl.
  rewrite includes_join1 by reflexivity.
  cbn [existsb]. rewrite Hh, Hrf. unfold renderFormType.
  remember (titleCase name) as tn.
  destruct (includes rf fileMarker); walk; reflexivity.
Qed.

End FieldsText.


Lemma documents_blockOf (title name : string) (args : list string) :
  exists server,
    Index.documents title name args
    = Some (Index.pageSvelte name (renderHeader (join (nl ++ nl) (map (blockOf name) args)))
              title (join (nl ++ nl) (map (blockOf name) args)), server).
Proof. rewrite documents_index. eexists. reflexivity. Qed.




(** C3, as amended: the view document carries the multipart attribute
    when a field has the type file or the type files; and when neither the
    title, the form name nor an argument holds a double quote, only then. *)
Theorem multipart_follows_file_marker (title name : string) (args : list string)
  (view server : string)
  (Hdocs : Index.documents title name args = Some (view, server)) :
  (existsb isFileInput args = true -> includes view enctype = true)
  /\ (has_char dq_char title = false -> has_char dq_char name = false ->
      Forall (fun a => has_char dq_char a = false) args ->
      includes view enctype = existsb isFileInput args).
Proof.
  destruct (documents_blockOf title name args) as [server' E].
  rewrite E in Hdocs. injection Hdocs as <- _. split.
  - intros H. now apply pageSvelte_enctype_intro, renderedFields_fileMarker.
  - intros Ht Hn F.
    rewrite pageSvelte_enctype_iff; try assumption.
    + now apply renderedFields_fileMarker_iff.
    + apply renderHeader_enctype.
    + now apply renderedFields_enctype.
Qed.

Lemma multipart_follows_file_marker_witness :
  exists view server,
    Index.documents "Signup" "signup" ["email:email"; "photo:files"] = Some (view, server)
    /\ has_char dq_char "Signup" = false /\ has_char dq_char "signup" = false
    /\ Forall (fun a => has_char dq_char a = false) ["email:email"; "photo:files"]
    /\ includes view enctype = true.
Proof.
  eexists _, _. split; [reflexivity|].
  assert (F : Forall (fun a => has_char dq_char a = false) ["email:email"; "photo:files"])
    by (repeat constructor).
  split; [reflexivity|]. split; [reflexivity|]. split; [exact F|].
  exact (eq_trans
           (proj2 (multipart_follows_file_marker "Signup" "signup"
                     ["email:email"; "photo:files"] _ _ eq_refl) eq_refl eq_refl F)
           eq_refl).
Defined.

(** C3 as stated fails: one field of the type file, and none of the type
    files, and the view document carries the multipart attribute. *)
Lemma single_file_input_gets_multipart :
  exists view server,
    Index.documents "Profile" "profile" ["avatar:file"] = Some (view, server)
    /\ includes view enctype = true
    /\ existsb (fun a => typeOf a == "files") ["avatar:file"] = false.
Proof.
  eexists _, _. split; [reflexivity|]. split; vm_compute; reflexivity.
Qed.
